(** * cedar-retouch-utils: list-audio-devices and sem_unlink

    A shallow embedding of the two command-line tools under [src/tools]:

    - [list-audio-devices.c] lists the PortAudio output devices;
    - [sem_unlink.c] removes a named POSIX semaphore.

    Both programs are glue around an external collaborator (PortAudio, the
    operating system).  The collaborator is a record of answers, the process
    is a state-and-failure monad over a world that holds [errno] and the
    chronological trace of what the process did: every call into the
    collaborator and every write to [stdout] and [stderr].  Undefined
    behaviour of the C program is the failure of the monad. *)

From Stdlib Require Import ZArith List Ascii String Lia.
From stdpp Require Import base option list list_numbers strings pretty.

Local Open Scope string_scope.
Local Open Scope list_scope.
Local Open Scope Z_scope.

(** ** C strings and the [printf] family *)

Module Stdio.

Definition LF : ascii := "010"%char.
Definition backslash : ascii := "092"%char.

(** What the C compiler makes of the text between the quotes of a string
    literal: the escape sequence backslash-n is one line feed, the only
    escape the two programs write; any other escaped character is kept as it
    is.  [esc] says that the previous character was an unescaped backslash. *)
Fixpoint c_literal (esc : bool) (s : string) : string :=
  match s with
  | EmptyString => EmptyString
  | String c s' =>
      if esc then String (if Ascii.eqb c "n" then LF else c) (c_literal false s')
      else if Ascii.eqb c backslash then c_literal true s'
      else String c (c_literal false s')
  end.

Definition c_str (s : string) : string := c_literal false s.

Fixpoint spaces (n : nat) : string :=
  match n with
  | O => EmptyString
  | S n' => String " " (spaces n')
  end.

(** A minimum field width: the converted text is never cut, it is filled
    with spaces on the left, or on the right under the [-] flag. *)
Definition pad (ljust : bool) (width : nat) (s : string) : string :=
  let fill := spaces (width - String.length s) in
  if ljust then s +:+ fill else fill +:+ s.

(** The variadic arguments the two programs pass: an [int], a pointer to a
    NUL-terminated string, or a null pointer. *)
Inductive arg :=
| Int (z : Z)
| Str (s : string)
| Null.

Definition ptr_arg (p : option string) : arg :=
  match p with
  | Some s => Str s
  | None => Null
  end.

(** One conversion.  [%d] takes an [int], [%s] a string; anything else,
    a null pointer for [%s] included, is undefined. *)
Definition convert (c : ascii) (ljust : bool) (width : nat) (a : arg)
  : option string :=
  match a with
  | Int z => if Ascii.eqb c "d" then Some (pad ljust width (pretty z)) else None
  | Str s => if Ascii.eqb c "s" then Some (pad ljust width s) else None
  | Null => None
  end.

(** Where the scan of the format stands: in ordinary text, or inside a
    conversion specification after [%], with the [-] flag seen or not and the
    width read so far ([None] while flags may still come).

    [format] covers the directives the two programs use: [%d] and [%s] with
    an optional [-] flag and an optional decimal width.  A directive outside
    this fragment, a missing argument and an argument of the wrong type all
    give [None]; arguments left over at the end of the format are ignored. *)
Inductive scan :=
| Plain
| Spec (ljust : bool) (width : option nat).

Fixpoint format (st : scan) (fmt : string) (args : list arg) : option string :=
  match fmt with
  | EmptyString =>
      match st with
      | Plain => Some EmptyString
      | Spec _ _ => None
      end
  | String c fmt' =>
      match st with
      | Plain =>
          if Ascii.eqb c "%" then format (Spec false None) fmt' args
          else String c <$> format Plain fmt' args
      | Spec ljust width =>
          if Ascii.eqb c "-" then
            match width with
            | None => format (Spec true None) fmt' args
            | Some _ => None
            end
          else
            match Ascii.is_nat c, width with
            | Some O, None => None
            | Some d, _ =>
                format (Spec ljust (Some (10 * default 0 width + d)%nat)) fmt' args
            | None, _ =>
                match args with
                | a :: args' =>
                    s ← convert c ljust (default 0%nat width) a;
                    String.app s <$> format Plain fmt' args'
                | [] => None
                end
            end
      end
  end.

Definition sprintf (fmt : string) (args : list arg) : option string :=
  format Plain fmt args.

End Stdio.

Import Stdio.

(** ** The process and its world *)

Module Process.

Inductive stream := stdout | stderr.

Section World.

(** The calls the program makes into its external collaborator. *)
Context {call : Type}.

Inductive event :=
| Write (f : stream) (s : string)
| Extern (c : call).

Record world := World { errno : Z; trace : list event }.

(** At program startup [errno] is zero and nothing has happened yet. *)
Definition startup : world := World 0 [].

(** A computation either is undefined ([None]) or returns a value and the
    world it leaves. *)
Definition M (A : Type) : Type := world -> option (A * world).

Definition ret {A} (a : A) : M A := fun w => Some (a, w).

Definition bind {A B} (m : M A) (k : A -> M B) : M B :=
  fun w =>
    match m w with
    | Some (a, w') => k a w'
    | None => None
    end.

Definition undefined {A} : M A := fun _ => None.

Definition emit (e : event) : M unit :=
  fun w => Some (tt, World (errno w) (trace w ++ [e])).

(** The world after some more events. *)
Definition log (w : world) (es : list event) : world :=
  World (errno w) (trace w ++ es).

Definition get_errno : M Z := fun w => Some (errno w, w).

Definition set_errno (e : Z) : M unit :=
  fun w => Some (tt, World e (trace w)).

(** [fprintf(f, fmt, ...)]: the formatted text goes to the stream in one
    piece; a format the arguments do not fit is undefined. *)
Definition fprintf (f : stream) (fmt : string) (args : list arg) : M unit :=
  match sprintf fmt args with
  | Some s => emit (Write f s)
  | None => undefined
  end.

Definition printf (fmt : string) (args : list arg) : M unit :=
  fprintf stdout fmt args.

(** [for (int i = lo; i < hi; i++) body(i)], for a body that leaves [i]
    and [hi] alone: the body runs at [lo], [lo + 1], ..., [hi - 1], in that
    order, and not at all when [hi <= lo].  [i] stays below [hi], so the
    increment never overflows an [int]. *)
Fixpoint for_each (l : list Z) (body : Z -> M unit) : M unit :=
  match l with
  | [] => ret tt
  | i :: l' => bind (body i) (fun _ => for_each l' body)
  end.

Definition for_range (lo hi : Z) (body : Z -> M unit) : M unit :=
  for_each (seqZ lo (hi - lo)) body.

(** *** What an observer sees of a trace *)

Definition written (f : stream) (e : event) : option string :=
  match e with
  | Write stdout s => match f with stdout => Some s | stderr => None end
  | Write stderr s => match f with stderr => Some s | stdout => None end
  | Extern _ => None
  end.

Definition called (e : event) : option call :=
  match e with
  | Extern c => Some c
  | Write _ _ => None
  end.

(** The pieces written to a stream, oldest first. *)
Definition output (f : stream) (t : list event) : list string :=
  omap (written f) t.

(** The calls into the collaborator, oldest first. *)
Definition calls (t : list event) : list call :=
  omap called t.

End World.

Arguments event : clear implicits.
Arguments world : clear implicits.
Arguments M : clear implicits.

Declare Scope process_scope.
Delimit Scope process_scope with process.
Notation "x <- m ;; k" := (bind m (fun x => k))
  (at level 100, m at next level, right associativity) : process_scope.
Notation "m ;; k" := (bind m (fun _ => k))
  (at level 100, right associativity) : process_scope.

End Process.

Import Process.
Local Open Scope process_scope.


(** ** list-audio-devices.c *)

Module ListAudioDevices.

(** The fields of PortAudio's [PaDeviceInfo] and [PaHostApiInfo] that the
    program reads. *)
Record PaDeviceInfo := {
  name : string;
  hostApi : Z;
  maxOutputChannels : Z
}.

Record PaHostApiInfo := {
  api_name : string
}.

Definition paNoError : Z := 0.

(** The audio subsystem, an opaque collaborator: what each of its entry
    points answers.  A record that is not available is a null pointer. *)
Record PortAudio := {
  initialize : Z;
  device_count : Z;
  default_output_device : Z;
  device_info : Z -> option PaDeviceInfo;
  host_api_info : Z -> option PaHostApiInfo;
  error_text : Z -> string
}.

Inductive call :=
| CInitialize
| CGetErrorText (err : Z)
| CGetDeviceCount
| CGetDefaultOutputDevice
| CGetDeviceInfo (device : Z)
| CGetHostApiInfo (host_api : Z)
| CTerminate.

Abbreviation event := (Process.event call).
Abbreviation world := (Process.world call).
Abbreviation M := (Process.M call).

Section Program.

Variable pa : PortAudio.

Definition Pa_Initialize : M Z :=
  emit (Extern CInitialize);; ret (initialize pa).

Definition Pa_GetErrorText (err : Z) : M string :=
  emit (Extern (CGetErrorText err));; ret (error_text pa err).

Definition Pa_GetDeviceCount : M Z :=
  emit (Extern CGetDeviceCount);; ret (device_count pa).

Definition Pa_GetDefaultOutputDevice : M Z :=
  emit (Extern CGetDefaultOutputDevice);; ret (default_output_device pa).

Definition Pa_GetDeviceInfo (device : Z) : M (option PaDeviceInfo) :=
  emit (Extern (CGetDeviceInfo device));; ret (device_info pa device).

Definition Pa_GetHostApiInfo (host_api : Z) : M (option PaHostApiInfo) :=
  emit (Extern (CGetHostApiInfo host_api));; ret (host_api_info pa host_api).

Definition Pa_Terminate : M unit :=
  emit (Extern CTerminate).

(** The body of the [for] loop of [main], at index [i]. *)
Definition loop_body (default_out : Z) (i : Z) : M unit :=
  info <- Pa_GetDeviceInfo i;;
  match info with
  | None => ret tt
  | Some info =>
      if maxOutputChannels info <? 1 then ret tt
      else
        api <- Pa_GetHostApiInfo (hostApi info);;
        let api_name :=
          match api with
          | Some api => api_name api
          | None => "?"
          end in
        let marker := if i =? default_out then " *" else "" in
        printf (c_str "%3d  %-40s  [%s]%s\n")
               [Int i; Str (name info); Str api_name; Str marker]
  end.

Definition main : M Z :=
  err <- Pa_Initialize;;
  if negb (err =? paNoError) then
    text <- Pa_GetErrorText err;;
    fprintf stderr (c_str "PortAudio init failed: %s\n") [Str text];;
    ret 1
  else
    count <- Pa_GetDeviceCount;;
    if count <? 0 then
      text <- Pa_GetErrorText count;;
      fprintf stderr (c_str "PortAudio error: %s\n") [Str text];;
      Pa_Terminate;;
      ret 1
    else
      default_out <- Pa_GetDefaultOutputDevice;;
      for_range 0 count (loop_body default_out);;
      Pa_Terminate;;
      ret 0.

End Program.

(** *** Observations used by the specification *)

(** The trace a computation leaves when it runs from program startup. *)
Definition run_trace {A} (m : M A) : list event :=
  match m startup with
  | Some (_, w) => trace w
  | None => []
  end.

(** What the iteration of the loop at index [i] writes to [stdout]. *)
Definition lines_printed_for (pa : PortAudio) (i : Z) : list string :=
  output stdout (run_trace (loop_body pa (default_output_device pa) i)).

Definition is_terminate (c : call) : bool :=
  match c with
  | CTerminate => true
  | _ => false
  end.

Definition is_enumeration (c : call) : bool :=
  match c with
  | CGetDeviceCount | CGetDefaultOutputDevice
  | CGetDeviceInfo _ | CGetHostApiInfo _ => true
  | _ => false
  end.

(** How many times a trace tears the subsystem down. *)
Definition teardowns (t : list event) : nat :=
  length (List.filter is_terminate (calls t)).

(** [s] ends with [suffix]. *)
Definition ends_with (suffix s : string) : Prop :=
  list_ascii_of_string suffix `suffix_of` list_ascii_of_string s.

(** The default marker at the end of a line: a space, an asterisk, and the
    line feed that closes the line. *)
Definition marker_end : string := " *" +:+ String LF "".

(** The line [main] prints for a device, in closed form. *)
Definition device_line (i : Z) (name api_name : string) (is_default : bool)
  : string :=
  pad false 3 (pretty i) +:+ "  " +:+ pad true 40 name +:+ "  ["
    +:+ api_name +:+ "]" +:+ (if is_default then " *" else "")
    +:+ String LF "".

(** The events of one iteration of the loop, in closed form. *)
Definition iteration (pa : PortAudio) (default_out i : Z) : list event :=
  Extern (CGetDeviceInfo i) ::
  match device_info pa i with
  | None => []
  | Some info =>
      if maxOutputChannels info <? 1 then []
      else
        [Extern (CGetHostApiInfo (hostApi info));
         Write stdout
           (device_line i (name info)
              (match host_api_info pa (hostApi info) with
               | Some api => api_name api
               | None => "?"
               end)
              (i =? default_out))]
  end.

(** The events of a whole run that enumerates the devices, in closed
    form. *)
Definition enumeration (pa : PortAudio) : list event :=
  [Extern CInitialize; Extern CGetDeviceCount; Extern CGetDefaultOutputDevice]
    ++ concat (iteration pa (default_output_device pa)
                 <$> seqZ 0 (device_count pa))
    ++ [Extern CTerminate].

(** *** The line format as the specification words it *)

(** The name column of the specification: the name left-aligned, padded or
    truncated to exactly 40 characters. *)
Definition spec_name_field (name : string) : string :=
  String.substring 0 40 (name +:+ spaces 40).

Definition spec_device_line (i : Z) (name api_name : string)
  (is_default : bool) : string :=
  pad false 3 (pretty i) +:+ "  " +:+ spec_name_field name +:+ "  ["
    +:+ api_name +:+ "]" +:+ (if is_default then " *" else "")
    +:+ String LF "".

(** *** Sample subsystems *)

(** Two devices on one host API: an output device at index 0, which is the
    default output, and an input-only device at index 1. *)
Definition two_devices : PortAudio := {|
  initialize := 0;
  device_count := 2;
  default_output_device := 0;
  device_info := fun i =>
    if i =? 0 then Some {| name := "Built-in Output"; hostApi := 0;
                           maxOutputChannels := 2 |}
    else if i =? 1 then Some {| name := "Built-in Microphone"; hostApi := 0;
                                maxOutputChannels := 0 |}
    else None;
  host_api_info := fun h =>
    if h =? 0 then Some {| api_name := "Core Audio" |} else None;
  error_text := fun _ => "Unanticipated host error"
|}.

(** One output device whose host API record is missing. *)
Definition orphan_device : PortAudio := {|
  initialize := 0;
  device_count := 1;
  default_output_device := -1;
  device_info := fun i =>
    if i =? 0 then Some {| name := "USB DAC"; hostApi := 7;
                           maxOutputChannels := 2 |}
    else None;
  host_api_info := fun _ => None;
  error_text := fun _ => "Unanticipated host error"
|}.

(** One output device with a name of 44 characters. *)
Definition long_name : string :=
  "Scarlett 18i20 USB Audio Interface (3rd Gen)".

Definition long_name_device : PortAudio := {|
  initialize := 0;
  device_count := 1;
  default_output_device := 0;
  device_info := fun i =>
    if i =? 0 then Some {| name := long_name; hostApi := 0;
                           maxOutputChannels := 2 |}
    else None;
  host_api_info := fun h =>
    if h =? 0 then Some {| api_name := "ALSA" |} else None;
  error_text := fun _ => "Unanticipated host error"
|}.

(** A subsystem that fails to initialize ([paNotInitialized] is -10000). *)
Definition broken_init : PortAudio := {|
  initialize := -10000;
  device_count := 0;
  default_output_device := -1;
  device_info := fun _ => None;
  host_api_info := fun _ => None;
  error_text := fun _ => "PortAudio not initialized"
|}.

(** A subsystem that initializes and then fails to count its devices
    ([paInternalError] is -9986). *)
Definition broken_count : PortAudio := {|
  initialize := 0;
  device_count := -9986;
  default_output_device := -1;
  device_info := fun _ => None;
  host_api_info := fun _ => None;
  error_text := fun _ => "Internal PortAudio error"
|}.

(** *** Further observations *)

(** The record of the device at [i], when the loop prints a line for it: the
    record is there and the test [maxOutputChannels < 1] of the loop fails. *)
Definition printed_device (pa : PortAudio) (i : Z) : option PaDeviceInfo :=
  match device_info pa i with
  | Some info => if maxOutputChannels info <? 1 then None else Some info
  | None => None
  end.

(** The device index a call asks the record of, the host API a call asks the
    record of. *)
Definition info_query (c : call) : option Z :=
  match c with
  | CGetDeviceInfo i => Some i
  | _ => None
  end.

Definition host_api_query (c : call) : option Z :=
  match c with
  | CGetHostApiInfo h => Some h
  | _ => None
  end.

(** The line carries the default marker: [ends_with marker_end], decided. *)
Definition has_marker (line : string) : bool :=
  bool_decide
    (list_ascii_of_string marker_end `suffix_of` list_ascii_of_string line).

(** Four indices: an output device, an input-only device, an index without
    a record, and the default output device on another host API. *)
Definition studio : PortAudio := {|
  initialize := 0;
  device_count := 4;
  default_output_device := 3;
  device_info := fun i =>
    if i =? 0 then Some {| name := "HDMI"; hostApi := 0;
                           maxOutputChannels := 8 |}
    else if i =? 1 then Some {| name := "Webcam Microphone"; hostApi := 0;
                                maxOutputChannels := 0 |}
    else if i =? 3 then Some {| name := "Monitor Speakers"; hostApi := 1;
                                maxOutputChannels := 2 |}
    else None;
  host_api_info := fun h =>
    if h =? 0 then Some {| api_name := "ALSA" |}
    else if h =? 1 then Some {| api_name := "JACK Audio Connection Kit" |}
    else None;
  error_text := fun _ => "Unanticipated host error"
|}.

End ListAudioDevices.

(** ** sem_unlink.c *)

Module SemUnlink.

(** The operating system, an opaque collaborator: what [sem_unlink] returns
    for a name, the error number it leaves in [errno] when it fails, and the
    text [perror] has for an error number. *)
Record System := {
  unlink_result : string -> Z;
  unlink_errno : string -> Z;
  error_message : Z -> string
}.

Inductive call :=
| CSemUnlink (name : string).

Abbreviation event := (Process.event call).
Abbreviation world := (Process.world call).
Abbreviation M := (Process.M call).

Section Program.

Variable os : System.

Definition sem_unlink (name : string) : M Z :=
  emit (Extern (CSemUnlink name));;
  let r := unlink_result os name in
  (if r =? 0 then ret tt else set_errno (unlink_errno os name));;
  ret r.

(** [perror(s)]: [s], a colon and a space (when [s] is not empty), the
    message for the current [errno], and a line feed, to [stderr]. *)
Definition perror (s : string) : M unit :=
  e <- get_errno;;
  let intro :=
    match s with
    | EmptyString => EmptyString
    | _ => s +:+ ": "
    end in
  emit (Write stderr (intro +:+ error_message os e +:+ String LF "")).

(** [argv] holds the [argc] strings of the argument vector; the element
    past them is the null pointer. *)
Definition main (argv : list string) : M Z :=
  let argc := Z.of_nat (length argv) in
  if negb (argc =? 2) then
    fprintf stderr (c_str "Usage: %s /name\n") [ptr_arg (argv !! 0%nat)];;
    ret 1
  else
    match argv !! 1%nat with
    | None => undefined
    | Some name =>
        r <- sem_unlink name;;
        if negb (r =? 0) then
          perror "sem_unlink";;
          ret 1
        else
          printf (c_str "Unlinked semaphore %s\n") [Str name];;
          ret 0
    end.

End Program.

(** *** Observations used by the specification *)

Definition unlink_attempts (t : list event) : nat := length (calls t).

(** [needle] occurs in [hay] as a contiguous piece. *)
Fixpoint contains (needle hay : string) : bool :=
  String.prefix needle hay ||
  match hay with
  | EmptyString => false
  | String _ hay' => contains needle hay'
  end.

(** *** Sample systems *)

Definition ENOENT : Z := 2.
Definition EACCES : Z := 13.

Definition strerror (e : Z) : string :=
  if e =? ENOENT then "No such file or directory"
  else if e =? EACCES then "Permission denied"
  else "Unknown error".

(** A system on which only the semaphore [/test] exists. *)
Definition only_test : System := {|
  unlink_result := fun n => if String.eqb n "/test" then 0 else -1;
  unlink_errno := fun _ => ENOENT;
  error_message := strerror
|}.

(** A system with no named semaphore at all. *)
Definition no_semaphores : System := {|
  unlink_result := fun _ => -1;
  unlink_errno := fun _ => ENOENT;
  error_message := strerror
|}.

End SemUnlink.

(** * Properties *)

(** ** Strings *)

Lemma list_ascii_of_string_app (s1 s2 : string) :
  list_ascii_of_string (s1 +:+ s2)
  = list_ascii_of_string s1 ++ list_ascii_of_string s2.
Proof.
  induction s1 as [|c s1 IH]; [done|].
  change (String c s1 +:+ s2) with (String c (s1 +:+ s2)). simpl.
  by rewrite IH.
Qed.

Lemma string_length_app (s1 s2 : string) :
  String.length (s1 +:+ s2) = (String.length s1 + String.length s2)%nat.
Proof.
  induction s1 as [|c s1 IH]; [done|].
  change (String c s1 +:+ s2) with (String c (s1 +:+ s2)). simpl.
  by rewrite IH.
Qed.

Lemma string_app_assoc (s1 s2 s3 : string) :
  (s1 +:+ s2) +:+ s3 = s1 +:+ s2 +:+ s3.
Proof.
  induction s1 as [|c s1 IH]; [done|].
  change ((String c s1 +:+ s2) +:+ s3) with (String c ((s1 +:+ s2) +:+ s3)).
  by rewrite IH.
Qed.

(** The last two characters of a text that ends with three given ones. *)
Lemma suffix3_last2 {A} (l k : list A) (a b c y z : A) :
  l ++ [y; z] = k ++ [a; b; c] -> y = b /\ z = c.
Proof.
  intros H. change (k ++ [a; b; c]) with (k ++ [a] ++ [b; c]) in H.
  rewrite (assoc_L (++)) in H.
  apply app_inj_2 in H as [_ H]; [|done]. by injection H.
Qed.

Lemma length_spaces (n : nat) : String.length (spaces n) = n.
Proof. induction n as [|n IH]; simpl; [done|]. by rewrite IH. Qed.

(** A padded field is as wide as the width asks, or as the text needs. *)
Lemma length_pad (ljust : bool) (width : nat) (s : string) :
  String.length (pad ljust width s) = Nat.max width (String.length s).
Proof.
  unfold pad. destruct ljust; rewrite string_length_app, length_spaces; lia.
Qed.

(** ** The process monad *)

Section ProcessFacts.

Context {call : Type}.
Implicit Types (w : world call) (e : event call) (es t : list (event call)).

Lemma log_nil w : log w [] = w.
Proof. destruct w; unfold log; simpl. by rewrite app_nil_r. Qed.

Lemma log_log w es1 es2 : log (log w es1) es2 = log w (es1 ++ es2).
Proof. unfold log; simpl. by rewrite app_assoc. Qed.

Lemma emit_run e w : emit e w = Some (tt, log w [e]).
Proof. done. Qed.

Lemma bind_run {A B} (m : M call A) (k : A -> M call B) w a w' :
  m w = Some (a, w') -> bind m k w = k a w'.
Proof. unfold bind. by intros ->. Qed.

Lemma bind_ret {A B} (a : A) (k : A -> M call B) w : bind (ret a) k w = k a w.
Proof. done. Qed.

Lemma bind_emit {B} e (k : unit -> M call B) w :
  bind (emit e) k w = k tt (log w [e]).
Proof. done. Qed.

Lemma bind_assoc {A B C} (m : M call A) (f : A -> M call B)
  (g : B -> M call C) w :
  bind (bind m f) g w = bind m (fun a => bind (f a) g) w.
Proof. unfold bind. by destruct (m w) as [[a w']|]. Qed.

Lemma bind_fprintf {B} f fmt args s (k : unit -> M call B) w :
  sprintf fmt args = Some s ->
  bind (fprintf f fmt args) k w = k tt (log w [Write f s]).
Proof. unfold bind, fprintf. by intros ->. Qed.

Lemma fprintf_run f fmt args s w :
  sprintf fmt args = Some s ->
  fprintf f fmt args w = Some (tt, log w [Write f s]).
Proof. unfold fprintf. by intros ->. Qed.

(** A loop whose body only appends events appends them in index order. *)
Lemma for_each_run (body : Z -> M call unit) (ev : Z -> list (event call)) l :
  (forall i w, body i w = Some (tt, log w (ev i))) ->
  forall w, for_each l body w = Some (tt, log w (concat (ev <$> l))).
Proof.
  intros Hbody. induction l as [|i l IH]; intros w; simpl.
  - unfold ret. by rewrite log_nil.
  - rewrite (bind_run _ _ _ _ _ (Hbody i w)), IH. by rewrite log_log.
Qed.

Lemma output_app f t1 t2 :
  output f (t1 ++ t2) = output f t1 ++ output f t2.
Proof. apply omap_app. Qed.

Lemma calls_app t1 t2 : calls (t1 ++ t2) = calls t1 ++ calls t2.
Proof. apply omap_app. Qed.

Lemma output_concat f (ts : list (list (event call))) :
  output f (concat ts) = concat (output f <$> ts).
Proof.
  induction ts as [|t ts IH]; simpl; [done|].
  by rewrite output_app, IH.
Qed.

Lemma calls_concat (ts : list (list (event call))) :
  calls (concat ts) = concat (calls <$> ts).
Proof.
  induction ts as [|t ts IH]; simpl; [done|].
  by rewrite calls_app, IH.
Qed.

Lemma concat_fmap_nil {A B} (f : A -> list B) (l : list A) :
  (forall x, f x = []) -> concat (f <$> l) = [].
Proof.
  intros Hf. induction l as [|x l IH]; simpl; [done|].
  rewrite Hf. exact IH.
Qed.

Lemma filter_concat_fmap_nil {A B} (p : B -> bool) (f : A -> list B)
  (l : list A) :
  (forall x, List.filter p (f x) = []) ->
  List.filter p (concat (f <$> l)) = [].
Proof.
  intros Hf. induction l as [|x l IH]; [done|].
  rewrite fmap_cons. cbn [concat]. rewrite List.filter_app, Hf. exact IH.
Qed.

Lemma elem_of_concat_fmap {A B} (f : A -> list B) (l : list A) (y : B) :
  y ∈ concat (f <$> l) <-> exists x, x ∈ l /\ y ∈ f x.
Proof.
  induction l as [|x l IH].
  - split; [by intros ?%elem_of_nil|]. by intros (x & ?%elem_of_nil & _).
  - rewrite fmap_cons. cbn [concat]. rewrite elem_of_app, IH. split.
    + intros [Hy|(x' & Hx' & Hy)].
      * exists x. split; [left|done].
      * exists x'. split; [by right|done].
    + intros (x' & [->|Hx']%elem_of_cons & Hy); [by left|].
      right. by exists x'.
Qed.

End ProcessFacts.

(** Running a computation event by event. *)
Ltac run_step :=
  first [ rewrite bind_assoc | rewrite bind_emit | rewrite bind_ret
        | rewrite emit_run ].
Ltac run := repeat run_step.

(** ** list-audio-devices *)

Module ListAudioDevicesFacts.

Import ListAudioDevices.

Section Runs.

Variable pa : PortAudio.
Implicit Types (w : world) (i : Z).

(** The three [printf] calls of the program, formatted. *)
Lemma sprintf_device_line i dev_name host_name :
  forall is_default : bool,
  sprintf (c_str "%3d  %-40s  [%s]%s\n")
    [Int i; Str dev_name; Str host_name;
     Str (if is_default then " *" else "")]
  = Some (device_line i dev_name host_name is_default).
Proof. by intros []. Qed.

Lemma sprintf_init_failed text :
  sprintf (c_str "PortAudio init failed: %s\n") [Str text]
  = Some ("PortAudio init failed: " +:+ text +:+ String LF "").
Proof. done. Qed.

Lemma sprintf_enum_failed text :
  sprintf (c_str "PortAudio error: %s\n") [Str text]
  = Some ("PortAudio error: " +:+ text +:+ String LF "").
Proof. done. Qed.

Lemma loop_body_run default_out i w :
  loop_body pa default_out i w = Some (tt, log w (iteration pa default_out i)).
Proof.
  unfold loop_body, iteration, Pa_GetDeviceInfo, Pa_GetHostApiInfo, printf.
  run. destruct (device_info pa i) as [info|]; [|done].
  destruct (maxOutputChannels info <? 1); [done|].
  run. rewrite (fprintf_run _ _ _ _ _
                  (sprintf_device_line _ _ _ (i =? default_out))).
  by rewrite !log_log.
Qed.

Lemma main_init_failed w :
  initialize pa <> paNoError ->
  main pa w =
    Some (1, log w [Extern CInitialize;
                    Extern (CGetErrorText (initialize pa));
                    Write stderr
                      ("PortAudio init failed: "
                         +:+ error_text pa (initialize pa)
                         +:+ String LF "")]).
Proof.
  intros Herr. unfold main, Pa_Initialize, Pa_GetErrorText. run.
  destruct (Z.eqb_spec (initialize pa) paNoError) as [|_]; [done|].
  cbv [negb]. run.
  rewrite (bind_fprintf _ _ _ _ _ _ (sprintf_init_failed _)).
  unfold ret. by rewrite !log_log.
Qed.

Lemma main_count_failed w :
  initialize pa = paNoError ->
  device_count pa < 0 ->
  main pa w =
    Some (1, log w [Extern CInitialize;
                    Extern CGetDeviceCount;
                    Extern (CGetErrorText (device_count pa));
                    Write stderr
                      ("PortAudio error: "
                         +:+ error_text pa (device_count pa)
                         +:+ String LF "");
                    Extern CTerminate]).
Proof.
  intros Hinit Hcount. unfold main, Pa_Initialize, Pa_GetDeviceCount,
    Pa_GetErrorText, Pa_Terminate. run.
  rewrite Hinit, Z.eqb_refl. cbv [negb]. run.
  destruct (Z.ltb_spec (device_count pa) 0) as [_|]; [|lia]. run.
  rewrite (bind_fprintf _ _ _ _ _ _ (sprintf_enum_failed _)). run.
  unfold ret. by rewrite !log_log.
Qed.

Lemma main_enumerated w :
  initialize pa = paNoError ->
  0 <= device_count pa ->
  main pa w = Some (0, log w (enumeration pa)).
Proof.
  intros Hinit Hcount. unfold main, Pa_Initialize, Pa_GetDeviceCount,
    Pa_GetDefaultOutputDevice, Pa_Terminate, for_range, enumeration. run.
  rewrite Hinit, Z.eqb_refl. cbv [negb]. run.
  destruct (Z.ltb_spec (device_count pa) 0) as [|_]; [lia|]. run.
  unfold bind at 1.
  rewrite (for_each_run _ _ _ (loop_body_run (default_output_device pa))).
  run. unfold ret. by rewrite !log_log, Z.sub_0_r.
Qed.

(** What one iteration prints, case by case. *)
Lemma lines_printed_for_cases i :
  lines_printed_for pa i =
    match device_info pa i with
    | None => []
    | Some info =>
        if maxOutputChannels info <? 1 then []
        else [device_line i (name info)
                (match host_api_info pa (hostApi info) with
                 | Some api => api_name api
                 | None => "?"
                 end)
                (i =? default_output_device pa)]
    end.
Proof.
  unfold lines_printed_for, run_trace. rewrite loop_body_run.
  unfold iteration. simpl.
  destruct (device_info pa i) as [info|]; [|done].
  by destruct (maxOutputChannels info <? 1).
Qed.

Lemma output_iteration i :
  output stdout (iteration pa (default_output_device pa) i)
  = lines_printed_for pa i.
Proof.
  unfold lines_printed_for, run_trace. by rewrite loop_body_run.
Qed.

Lemma output_stderr_iteration d i : output stderr (iteration pa d i) = [].
Proof.
  unfold iteration. destruct (device_info pa i) as [info|]; [|done].
  by destruct (maxOutputChannels info <? 1).
Qed.

Lemma terminate_iteration d i :
  List.filter is_terminate (calls (iteration pa d i)) = [].
Proof.
  unfold iteration. destruct (device_info pa i) as [info|]; [|done].
  by destruct (maxOutputChannels info <? 1).
Qed.

(** The standard output of an enumerating run is what the iterations
    print, in index order. *)
Lemma output_stdout_enumeration :
  output stdout (enumeration pa)
  = concat (lines_printed_for pa <$> seqZ 0 (device_count pa)).
Proof.
  unfold enumeration. rewrite !output_app, output_concat. simpl.
  rewrite app_nil_r, <- list_fmap_compose. f_equal.
  apply list_fmap_ext. intros _ i _. apply output_iteration.
Qed.

Lemma output_stderr_enumeration : output stderr (enumeration pa) = [].
Proof.
  unfold enumeration. rewrite !output_app, output_concat.
  rewrite <- list_fmap_compose, concat_fmap_nil; [done|].
  intros i. apply output_stderr_iteration.
Qed.

Lemma teardowns_enumeration : teardowns (enumeration pa) = 1%nat.
Proof.
  unfold enumeration, teardowns. rewrite !calls_app, calls_concat.
  rewrite !List.filter_app, !length_app.
  rewrite <- list_fmap_compose, filter_concat_fmap_nil; [done|].
  intros i. apply terminate_iteration.
Qed.

(** An enumerating run from program startup. *)
Lemma main_startup_enumerated :
  initialize pa = paNoError ->
  0 <= device_count pa ->
  main pa startup = Some (0, World 0 (enumeration pa)).
Proof. intros Hinit Hcount. by rewrite main_enumerated. Qed.

Lemma elem_of_lines_printed_for i line :
  line ∈ lines_printed_for pa i ->
  exists info,
    device_info pa i = Some info /\
    1 <= maxOutputChannels info /\
    line = device_line i (name info)
             (match host_api_info pa (hostApi info) with
              | Some api => api_name api
              | None => "?"
              end)
             (i =? default_output_device pa).
Proof.
  rewrite lines_printed_for_cases.
  destruct (device_info pa i) as [info|]; [|by intros ?%elem_of_nil].
  destruct (Z.ltb_spec (maxOutputChannels info) 1) as [|Hout];
    [by intros ?%elem_of_nil|].
  intros ->%list_elem_of_singleton. exists info.
  split; [done|]. split; [lia|done].
Qed.

End Runs.

(** The marker closes a device line exactly when the line is the default
    device's. *)
(** A device line is what comes before the closing bracket, the bracket,
    the marker and the line feed. *)
Lemma device_line_split i dev_name host_name (is_default : bool) :
  device_line i dev_name host_name is_default
  = (pad false 3 (pretty i) +:+ "  " +:+ pad true 40 dev_name +:+ "  ["
       +:+ host_name)
      +:+ "]" +:+ (if is_default then " *" else "") +:+ String LF "".
Proof. unfold device_line. by rewrite !string_app_assoc. Qed.

Lemma ends_with_marker_device_line i dev_name host_name (is_default : bool) :
  ends_with marker_end (device_line i dev_name host_name is_default)
  <-> is_default = true.
Proof.
  unfold ends_with. rewrite device_line_split, list_ascii_of_string_app.
  split.
  - destruct is_default; [done|]. intros [k Hk]. exfalso.
    apply suffix3_last2 in Hk as [Hk _]. discriminate Hk.
  - intros ->. by apply suffix_app_r, suffix_cons_r.
Qed.

(** The run on [two_devices]: one line, for index 0, with the marker. *)
Example two_devices_run :
  main two_devices startup
  = Some (0, World 0
               [Extern CInitialize;
                Extern CGetDeviceCount;
                Extern CGetDefaultOutputDevice;
                Extern (CGetDeviceInfo 0);
                Extern (CGetHostApiInfo 0);
                Write stdout
                  ("  0  Built-in Output                           [Core Audio] *"
                     +:+ String LF "");
                Extern (CGetDeviceInfo 1);
                Extern CTerminate]).
Proof. reflexivity. Qed.

(** C1. Device Lister filtering: for every device index [i] in
    [0, device count), an output line is printed for [i] if and only if the
    device's descriptive record is available and its maximum output channel
    count is at least 1; the other indices produce no output and no error.
    The run succeeds with status 0 and an empty [stderr]; its [stdout] is
    what the iterations print, in index order; and the iteration at [i]
    prints a line (one at most) exactly for an available record with at
    least one output channel. *)
Theorem device_filtering (pa : PortAudio) :
  initialize pa = paNoError ->
  0 <= device_count pa ->
  exists t,
    main pa startup = Some (0, World 0 t) /\
    output stderr t = [] /\
    output stdout t
      = concat (lines_printed_for pa <$> seqZ 0 (device_count pa)) /\
    forall i, 0 <= i < device_count pa ->
      (length (lines_printed_for pa i) <= 1)%nat /\
      (lines_printed_for pa i <> [] <->
       exists info,
         device_info pa i = Some info /\ 1 <= maxOutputChannels info).
Proof.
  intros Hinit Hcount. exists (enumeration pa).
  split; [by apply main_startup_enumerated|].
  split; [apply output_stderr_enumeration|].
  split; [apply output_stdout_enumeration|].
  intros i _. rewrite lines_printed_for_cases.
  destruct (device_info pa i) as [info|].
  - destruct (Z.ltb_spec (maxOutputChannels info) 1) as [Hno|Hout].
    + split; [simpl; lia|]. split; [done|].
      intros (info' & [= <-] & ?). lia.
    + split; [simpl; lia|]. split; [|done]. intros _. by exists info.
  - split; [simpl; lia|]. split; [done|]. by intros (info & [=] & _).
Qed.

Lemma device_filtering_witness :
  initialize two_devices = paNoError /\
  0 <= device_count two_devices /\
  exists t,
    main two_devices startup = Some (0, World 0 t) /\
    output stderr t = [] /\
    output stdout t
      = concat (lines_printed_for two_devices
                  <$> seqZ 0 (device_count two_devices)) /\
    forall i, 0 <= i < device_count two_devices ->
      (length (lines_printed_for two_devices i) <= 1)%nat /\
      (lines_printed_for two_devices i <> [] <->
       exists info,
         device_info two_devices i = Some info /\
         1 <= maxOutputChannels info).
Proof.
  split; [reflexivity|]. split; [simpl; lia|].
  apply (device_filtering two_devices); [reflexivity | simpl; lia].
Defined.

(** C2. Device Lister default marker: among all printed lines, exactly the
    line whose device index equals the reported default output device index
    (if that device is printed at all) ends with a space followed by an
    asterisk; every other printed line has no such trailing marker. *)
Theorem default_marker (pa : PortAudio) :
  initialize pa = paNoError ->
  0 <= device_count pa ->
  exists t,
    main pa startup = Some (0, World 0 t) /\
    output stdout t
      = concat (lines_printed_for pa <$> seqZ 0 (device_count pa)) /\
    forall i line,
      0 <= i < device_count pa ->
      line ∈ lines_printed_for pa i ->
      (ends_with marker_end line <-> i = default_output_device pa).
Proof.
  intros Hinit Hcount. exists (enumeration pa).
  split; [by apply main_startup_enumerated|].
  split; [apply output_stdout_enumeration|].
  intros i line _ (info & _ & _ & ->)%elem_of_lines_printed_for.
  rewrite ends_with_marker_device_line. apply Z.eqb_eq.
Qed.

Lemma default_marker_witness :
  initialize two_devices = paNoError /\
  0 <= device_count two_devices /\
  exists t,
    main two_devices startup = Some (0, World 0 t) /\
    output stdout t
      = concat (lines_printed_for two_devices
                  <$> seqZ 0 (device_count two_devices)) /\
    forall i line,
      0 <= i < device_count two_devices ->
      line ∈ lines_printed_for two_devices i ->
      (ends_with marker_end line <-> i = default_output_device two_devices).
Proof.
  split; [reflexivity|]. split; [simpl; lia|].
  apply (default_marker two_devices); [reflexivity | simpl; lia].
Defined.

(** C3, as the specification states it, fails: the name column is not cut
    to 40 characters.  A device named with 44 characters is printed with
    its whole name, where the specification's line stops after 40. *)
Lemma name_truncation_counterexample :
  output stdout (run_trace (main long_name_device))
  = ["  0  Scarlett 18i20 USB Audio Interface (3rd Gen)  [ALSA] *"
       +:+ String LF ""] /\
  spec_device_line 0 long_name "ALSA" true
  = "  0  Scarlett 18i20 USB Audio Interface (3rd   [ALSA] *"
      +:+ String LF "" /\
  output stdout (run_trace (main long_name_device))
  <> [spec_device_line 0 long_name "ALSA" true].
Proof. split; [reflexivity|]. split; [reflexivity|]. discriminate. Qed.

(** C3, amended. Device Lister line format: every printed device line
    consists of the index in decimal, right-aligned and filled with spaces
    to a width of at least 3, two spaces, the whole device name,
    left-aligned and filled with spaces to a width of at least 40 (a name
    of more than 40 characters is printed in full and widens the column),
    two spaces, the host-API name in square brackets, the optional marker
    (a space and an asterisk), and a line feed. *)
Theorem device_line_format (pa : PortAudio) :
  initialize pa = paNoError ->
  0 <= device_count pa ->
  exists t,
    main pa startup = Some (0, World 0 t) /\
    forall line, line ∈ output stdout t ->
      exists i info (fill_index fill_name : nat) (host marker : string),
        0 <= i < device_count pa /\
        device_info pa i = Some info /\
        line = spaces fill_index +:+ pretty i +:+ "  "
                 +:+ name info +:+ spaces fill_name +:+ "  ["
                 +:+ host +:+ "]" +:+ marker +:+ String LF "" /\
        (fill_index + String.length (pretty i)
         = Nat.max 3 (String.length (pretty i)))%nat /\
        (String.length (name info) + fill_name
         = Nat.max 40 (String.length (name info)))%nat /\
        host = match host_api_info pa (hostApi info) with
               | Some api => api_name api
               | None => "?"
               end /\
        marker = if i =? default_output_device pa then " *" else "".
Proof.
  intros Hinit Hcount. exists (enumeration pa).
  split; [by apply main_startup_enumerated|].
  intros line. rewrite output_stdout_enumeration, elem_of_concat_fmap.
  intros (i & Hi%elem_of_seqZ & (info & Hinfo & _ & ->)%elem_of_lines_printed_for).
  exists i, info, (3 - String.length (pretty i))%nat,
    (40 - String.length (name info))%nat.
  eexists _, _. split; [lia|]. split; [done|].
  split; [|split; [lia|split; [lia|done]]].
  unfold device_line, pad. by rewrite !string_app_assoc.
Qed.

Lemma device_line_format_witness :
  initialize long_name_device = paNoError /\
  0 <= device_count long_name_device /\
  exists t,
    main long_name_device startup = Some (0, World 0 t) /\
    forall line, line ∈ output stdout t ->
      exists i info (fill_index fill_name : nat) (host marker : string),
        0 <= i < device_count long_name_device /\
        device_info long_name_device i = Some info /\
        line = spaces fill_index +:+ pretty i +:+ "  "
                 +:+ name info +:+ spaces fill_name +:+ "  ["
                 +:+ host +:+ "]" +:+ marker +:+ String LF "" /\
        (fill_index + String.length (pretty i)
         = Nat.max 3 (String.length (pretty i)))%nat /\
        (String.length (name info) + fill_name
         = Nat.max 40 (String.length (name info)))%nat /\
        host = match host_api_info long_name_device (hostApi info) with
               | Some api => api_name api
               | None => "?"
               end /\
        marker = if i =? default_output_device long_name_device
                 then " *" else "".
Proof.
  split; [reflexivity|]. split; [simpl; lia|].
  apply (device_line_format long_name_device); [reflexivity | simpl; lia].
Defined.

(** C4. Device Lister host-API fallback: for every printed device, if the
    host-API record lookup for the device's host-API identifier fails, the
    bracketed field of that device's line renders exactly [[?]], and the
    program neither fails nor skips the device. *)
Theorem host_api_fallback (pa : PortAudio) (i : Z) (info : PaDeviceInfo) :
  initialize pa = paNoError ->
  0 <= i < device_count pa ->
  device_info pa i = Some info ->
  1 <= maxOutputChannels info ->
  host_api_info pa (hostApi info) = None ->
  exists t line,
    main pa startup = Some (0, World 0 t) /\
    lines_printed_for pa i = [line] /\
    line ∈ output stdout t /\
    line = pad false 3 (pretty i) +:+ "  " +:+ pad true 40 (name info)
             +:+ "  [?]"
             +:+ (if i =? default_output_device pa then " *" else "")
             +:+ String LF "".
Proof.
  intros Hinit Hi Hinfo Hout Hapi.
  assert (lines_printed_for pa i
          = [device_line i (name info) "?" (i =? default_output_device pa)])
    as Hline.
  { rewrite lines_printed_for_cases, Hinfo, Hapi.
    by destruct (Z.ltb_spec (maxOutputChannels info) 1); [lia|]. }
  exists (enumeration pa). eexists.
  split; [apply main_startup_enumerated; [done|lia]|].
  split; [exact Hline|]. split; [|done].
  rewrite output_stdout_enumeration, elem_of_concat_fmap.
  exists i. rewrite elem_of_seqZ, Hline. split; [lia|].
  by apply list_elem_of_singleton.
Qed.

Lemma host_api_fallback_witness :
  exists t line,
    main orphan_device startup = Some (0, World 0 t) /\
    lines_printed_for orphan_device 0 = [line] /\
    line ∈ output stdout t /\
    line = pad false 3 (pretty 0) +:+ "  " +:+ pad true 40 "USB DAC"
             +:+ "  [?]"
             +:+ (if 0 =? default_output_device orphan_device
                  then " *" else "")
             +:+ String LF "".
Proof.
  apply (host_api_fallback orphan_device 0
           {| name := "USB DAC"; hostApi := 7; maxOutputChannels := 2 |});
    [reflexivity | simpl; lia | reflexivity | simpl; lia | reflexivity].
Defined.

(** C5. Device Lister enumeration failure: whenever the subsystem reports a
    negative device count after successful initialization, the program
    prints the subsystem's error text to stderr, performs subsystem
    teardown, exits with status 1, and writes no device lines to stdout. *)
Theorem enumeration_failure (pa : PortAudio) :
  initialize pa = paNoError ->
  device_count pa < 0 ->
  exists t,
    main pa startup = Some (1, World 0 t) /\
    output stderr t
      = ["PortAudio error: " +:+ error_text pa (device_count pa)
           +:+ String LF ""] /\
    output stdout t = [] /\
    teardowns t = 1%nat /\
    calls t = [CInitialize; CGetDeviceCount;
               CGetErrorText (device_count pa); CTerminate].
Proof.
  intros Hinit Hcount. eexists. split.
  - rewrite main_count_failed by done. reflexivity.
  - done.
Qed.

Lemma enumeration_failure_witness :
  initialize broken_count = paNoError /\
  device_count broken_count < 0 /\
  exists t,
    main broken_count startup = Some (1, World 0 t) /\
    output stderr t
      = ["PortAudio error: "
           +:+ error_text broken_count (device_count broken_count)
           +:+ String LF ""] /\
    output stdout t = [] /\
    teardowns t = 1%nat /\
    calls t = [CInitialize; CGetDeviceCount;
               CGetErrorText (device_count broken_count); CTerminate].
Proof.
  split; [reflexivity|]. split; [simpl; lia|].
  apply (enumeration_failure broken_count); [reflexivity | simpl; lia].
Defined.

(** C6. Device Lister initialization failure: whenever subsystem
    initialization reports failure, the program prints the subsystem's
    human-readable error text to stderr and exits with status 1 without
    performing any teardown, enumeration, or device output. *)
Theorem initialization_failure (pa : PortAudio) :
  initialize pa <> paNoError ->
  exists t,
    main pa startup = Some (1, World 0 t) /\
    output stderr t
      = ["PortAudio init failed: " +:+ error_text pa (initialize pa)
           +:+ String LF ""] /\
    teardowns t = 0%nat /\
    List.filter is_enumeration (calls t) = [] /\
    output stdout t = [] /\
    calls t = [CInitialize; CGetErrorText (initialize pa)].
Proof.
  intros Hinit. eexists. split.
  - rewrite main_init_failed by done. reflexivity.
  - done.
Qed.

Lemma initialization_failure_witness :
  initialize broken_init <> paNoError /\
  exists t,
    main broken_init startup = Some (1, World 0 t) /\
    output stderr t
      = ["PortAudio init failed: "
           +:+ error_text broken_init (initialize broken_init)
           +:+ String LF ""] /\
    teardowns t = 0%nat /\
    List.filter is_enumeration (calls t) = [] /\
    output stdout t = [] /\
    calls t = [CInitialize; CGetErrorText (initialize broken_init)].
Proof.
  split; [discriminate|].
  apply (initialization_failure broken_init). discriminate.
Defined.

(** C7. Device Lister scoped release: on every execution path after
    initialization has succeeded, the enumeration-failure path and the
    normal path alike, the subsystem teardown is performed exactly once,
    as the last thing before the process exits; and after successful
    enumeration and teardown the program exits with status 0. *)
Theorem scoped_release (pa : PortAudio) :
  initialize pa = paNoError ->
  exists status t,
    main pa startup = Some (status, World 0 t) /\
    teardowns t = 1%nat /\
    last t = Some (Extern CTerminate) /\
    status = (if device_count pa <? 0 then 1 else 0).
Proof.
  intros Hinit.
  destruct (Z.ltb_spec (device_count pa) 0) as [Hneg|Hcount].
  - eexists _, _. split; [by rewrite main_count_failed|]. done.
  - exists 0, (enumeration pa).
    split; [by apply main_startup_enumerated|].
    split; [apply teardowns_enumeration|]. split; [|done].
    unfold enumeration. by rewrite !app_assoc, last_snoc.
Qed.

Lemma scoped_release_witness :
  initialize two_devices = paNoError /\
  exists status t,
    main two_devices startup = Some (status, World 0 t) /\
    teardowns t = 1%nat /\
    last t = Some (Extern CTerminate) /\
    status = (if device_count two_devices <? 0 then 1 else 0).
Proof.
  split; [reflexivity|]. apply (scoped_release two_devices). reflexivity.
Defined.

End ListAudioDevicesFacts.

(** ** sem_unlink *)

Module SemUnlinkFacts.

Import SemUnlink.

Section Runs.

Variable os : System.
Implicit Types (w : world) (prog name : string) (args : list string).

(** The two [printf] calls of the program, formatted. *)
Lemma sprintf_usage prog :
  sprintf (c_str "Usage: %s /name\n") [Str prog]
  = Some ("Usage: " +:+ prog +:+ " /name" +:+ String LF "").
Proof. done. Qed.

Lemma sprintf_unlinked name :
  sprintf (c_str "Unlinked semaphore %s\n") [Str name]
  = Some ("Unlinked semaphore " +:+ name +:+ String LF "").
Proof. done. Qed.

Lemma main_usage prog args w :
  length args <> 1%nat ->
  main os (prog :: args) w
  = Some (1, log w [Write stderr
                      ("Usage: " +:+ prog +:+ " /name" +:+ String LF "")]).
Proof.
  intros Hargs. unfold main.
  destruct (Z.eqb_spec (Z.of_nat (length (prog :: args))) 2) as [Hlen|_].
  - simpl in Hlen. lia.
  - cbv [negb]. simpl lookup. cbv [ptr_arg].
    by rewrite (bind_fprintf _ _ _ _ _ _ (sprintf_usage prog)).
Qed.

Lemma sem_unlink_run name w :
  sem_unlink os name w
  = Some (unlink_result os name,
          World (if unlink_result os name =? 0 then errno w
                 else unlink_errno os name)
                (trace w ++ [Extern (CSemUnlink name)])).
Proof.
  unfold sem_unlink. cbv zeta. run.
  by destruct (unlink_result os name =? 0).
Qed.

Lemma main_unlinked prog name w :
  unlink_result os name = 0 ->
  main os [prog; name] w
  = Some (0, log w [Extern (CSemUnlink name);
                    Write stdout
                      ("Unlinked semaphore " +:+ name +:+ String LF "")]).
Proof.
  intros Hok. unfold main, printf.
  change (Z.of_nat (length [prog; name]) =? 2) with true.
  change ([prog; name] !! 1%nat) with (Some name). cbv [negb].
  rewrite (bind_run _ _ _ _ _ (sem_unlink_run name w)).
  rewrite Hok, Z.eqb_refl.
  rewrite (bind_fprintf _ _ _ _ _ _ (sprintf_unlinked name)).
  unfold ret, log. simpl. by rewrite <- app_assoc.
Qed.

Lemma main_unlink_failed prog name w :
  unlink_result os name <> 0 ->
  main os [prog; name] w
  = Some (1, World (unlink_errno os name)
               (trace w ++
                [Extern (CSemUnlink name);
                 Write stderr
                   ("sem_unlink: "
                      +:+ error_message os (unlink_errno os name)
                      +:+ String LF "")])).
Proof.
  intros Hfail. unfold main, perror.
  change (Z.of_nat (length [prog; name]) =? 2) with true.
  change ([prog; name] !! 1%nat) with (Some name). cbv [negb].
  rewrite (bind_run _ _ _ _ _ (sem_unlink_run name w)).
  destruct (Z.eqb_spec (unlink_result os name) 0) as [|_]; [done|].
  unfold bind, get_errno, ret, emit, log. simpl.
  by rewrite <- app_assoc.
Qed.

End Runs.

(** An empty argument vector leaves [argv[0]] null, and the usage message
    would format a null pointer: the behaviour is undefined. *)
Example main_no_argv os w : main os [] w = None.
Proof. done. Qed.

(** C8. Semaphore Unlinker usage error: for every invocation whose
    argument count (excluding the program name) is not exactly one, the
    program prints the usage message [Usage: <program> /name] to stderr,
    exits with status 1, and does not attempt the removal system call. *)
Theorem usage_error (os : System) (prog : string) (args : list string) :
  length args <> 1%nat ->
  exists t,
    main os (prog :: args) startup = Some (1, World 0 t) /\
    output stderr t = ["Usage: " +:+ prog +:+ " /name" +:+ String LF ""] /\
    output stdout t = [] /\
    unlink_attempts t = 0%nat.
Proof.
  intros Hargs. eexists. split.
  - rewrite main_usage by done. reflexivity.
  - done.
Qed.

Lemma usage_error_witness :
  exists t,
    main only_test ("sem_unlink" :: ["/test"; "/other"]) startup
    = Some (1, World 0 t) /\
    output stderr t
    = ["Usage: " +:+ "sem_unlink" +:+ " /name" +:+ String LF ""] /\
    output stdout t = [] /\
    unlink_attempts t = 0%nat.
Proof. apply (usage_error only_test "sem_unlink" ["/test"; "/other"]). simpl. lia. Defined.

(** C9. Semaphore Unlinker success: for every invocation with exactly one
    argument naming a semaphore whose removal succeeds, the program prints
    exactly [Unlinked semaphore <name>] and a line feed to stdout, where
    [<name>] is the argument verbatim, and exits with status 0. *)
Theorem unlink_success (os : System) (prog name : string) :
  unlink_result os name = 0 ->
  exists t,
    main os [prog; name] startup = Some (0, World 0 t) /\
    output stdout t = ["Unlinked semaphore " +:+ name +:+ String LF ""] /\
    output stderr t = [] /\
    calls t = [CSemUnlink name].
Proof.
  intros Hok. eexists. split.
  - rewrite main_unlinked by done. reflexivity.
  - done.
Qed.

Lemma unlink_success_witness :
  exists t,
    main only_test ["sem_unlink"; "/test"] startup = Some (0, World 0 t) /\
    output stdout t = ["Unlinked semaphore /test" +:+ String LF ""] /\
    output stderr t = [] /\
    calls t = [CSemUnlink "/test"].
Proof. apply (unlink_success only_test "sem_unlink" "/test"). reflexivity. Defined.

(** C10, as the specification states it, fails: the message on stderr does
    not refer to the semaphore name.  Where no semaphore exists, removing
    [/test] prints the operation name and the error text, in which the
    name [/test] does not occur. *)
Lemma name_reference_counterexample :
  exists t,
    main no_semaphores ["sem_unlink"; "/test"] startup
    = Some (1, World ENOENT t) /\
    output stderr t
    = ["sem_unlink: No such file or directory" +:+ String LF ""] /\
    existsb (contains "/test") (output stderr t) = false.
Proof. eexists. split; [reflexivity|]. split; reflexivity. Qed.

(** C10, amended. Semaphore Unlinker removal failure: for every invocation
    with exactly one argument where the removal call fails, the program
    exits with status 1 and prints to stderr one line: the operation name
    [sem_unlink], a colon and a space, and the system's text for the error
    the call left in [errno].  The line is made of the operation name and
    that error text alone; nothing is written to stdout. *)
Theorem unlink_failure (os : System) (prog name : string) :
  unlink_result os name <> 0 ->
  exists t,
    main os [prog; name] startup
    = Some (1, World (unlink_errno os name) t) /\
    output stderr t
    = ["sem_unlink: " +:+ error_message os (unlink_errno os name)
         +:+ String LF ""] /\
    output stdout t = [] /\
    calls t = [CSemUnlink name].
Proof.
  intros Hfail. eexists. split.
  - rewrite main_unlink_failed by done. reflexivity.
  - done.
Qed.

Lemma unlink_failure_witness :
  exists t,
    main only_test ["sem_unlink"; "/missing"] startup
    = Some (1, World (unlink_errno only_test "/missing") t) /\
    output stderr t
    = ["sem_unlink: "
         +:+ error_message only_test (unlink_errno only_test "/missing")
         +:+ String LF ""] /\
    output stdout t = [] /\
    calls t = [CSemUnlink "/missing"].
Proof. apply (unlink_failure only_test "sem_unlink" "/missing"). discriminate. Defined.

End SemUnlinkFacts.

(** * Further properties *)

(** ** Lists of optional items *)

Lemma omap_concat_fmap {A B C} (g : B -> option C) (f : A -> list B)
  (l : list A) :
  omap g (concat (f <$> l)) = concat ((fun x => omap g (f x)) <$> l).
Proof.
  induction l as [|x l IH]; [done|].
  rewrite !fmap_cons. cbn [concat]. by rewrite omap_app, IH.
Qed.

Lemma concat_fmap_ext {A B} (f g : A -> list B) (l : list A) :
  (forall x, f x = g x) -> concat (f <$> l) = concat (g <$> l).
Proof.
  intros Hfg. induction l as [|x l IH]; [done|].
  rewrite !fmap_cons. cbn [concat]. by rewrite Hfg, IH.
Qed.

Lemma concat_fmap_singleton {A} (l : list A) :
  concat ((fun x => [x]) <$> l) = l.
Proof.
  induction l as [|x l IH]; [done|].
  rewrite fmap_cons. cbn [concat]. by rewrite IH.
Qed.

Lemma concat_fmap_option_list {A B} (g : A -> option B) (l : list A) :
  concat ((fun x => option_list (g x)) <$> l) = omap g l.
Proof.
  induction l as [|x l IH]; [done|].
  rewrite fmap_cons. cbn [concat]. rewrite IH. cbn [omap list_omap].
  by destruct (g x).
Qed.

Lemma length_omap_le {A B} (g : A -> option B) (l : list A) :
  (length (omap g l) <= length l)%nat.
Proof.
  induction l as [|x l IH]; [done|].
  cbn [omap list_omap]. destruct (g x); simpl; lia.
Qed.

Lemma length_omap_fmap {A B C} (g : A -> option B) (h : A -> B -> C)
  (l : list A) :
  length (omap (fun x => h x <$> g x) l) = length (omap g l).
Proof.
  induction l as [|x l IH]; [done|].
  cbn [omap list_omap]. destruct (g x); simpl; by rewrite IH.
Qed.

Lemma NoDup_concat_fmap {A B} (f : A -> list B) (l : list A) :
  NoDup l ->
  (forall x, NoDup (f x)) ->
  (forall x y z, z ∈ f x -> z ∈ f y -> x = y) ->
  NoDup (concat (f <$> l)).
Proof.
  intros Hl Hf Hsep. induction Hl as [|x l Hx Hl IH]; [constructor|].
  rewrite fmap_cons. cbn [concat]. apply NoDup_app.
  split; [apply Hf|]. split; [|exact IH].
  intros z Hz (y & Hy & Hzy)%elem_of_concat_fmap.
  by rewrite (Hsep x y z Hz Hzy) in Hx.
Qed.

(** ** Ends of strings *)

Lemma ends_with_app_r (suffix s1 s2 : string) :
  ListAudioDevices.ends_with suffix s2 ->
  ListAudioDevices.ends_with suffix (s1 +:+ s2).
Proof.
  unfold ListAudioDevices.ends_with. rewrite list_ascii_of_string_app.
  apply suffix_app_r.
Qed.

Lemma ends_with_refl (s : string) : ListAudioDevices.ends_with s s.
Proof. unfold ListAudioDevices.ends_with. done. Qed.

(** ** Decimal numbers in a line *)

Lemma list_ascii_of_spaces (n : nat) :
  list_ascii_of_string (spaces n) = replicate n " "%char.
Proof. induction n as [|n IH]; simpl; [done|]. by rewrite IH. Qed.

(** A decimal digit is not a space, and so is no character of a number. *)
Lemma pretty_N_char_no_space (x : N) : pretty_N_char x <> " "%char.
Proof. unfold pretty_N_char. by repeat case_match. Qed.

Lemma pretty_N_go_no_space (x : N) (s : string) :
  Forall (fun c => c <> " "%char) (list_ascii_of_string s) ->
  Forall (fun c => c <> " "%char) (list_ascii_of_string (pretty_N_go x s)).
Proof.
  revert s. induction (N.lt_wf_0 x) as [x _ IH]. intros s Hs.
  destruct (decide (x = 0)%N) as [->|Hx]; [by rewrite pretty_N_go_0|].
  rewrite pretty_N_go_step by lia. apply IH; [apply N.div_lt; lia|].
  simpl. constructor; [apply pretty_N_char_no_space | exact Hs].
Qed.

Lemma pretty_N_go_nonempty (x : N) (s : string) :
  s <> "" -> pretty_N_go x s <> "".
Proof.
  revert s. induction (N.lt_wf_0 x) as [x _ IH]. intros s Hs.
  destruct (decide (x = 0)%N) as [->|Hx]; [by rewrite pretty_N_go_0|].
  rewrite pretty_N_go_step by lia. apply IH; [apply N.div_lt; lia | done].
Qed.

Lemma pretty_N_no_space (x : N) :
  Forall (fun c => c <> " "%char) (list_ascii_of_string (pretty x)).
Proof.
  unfold pretty, pretty_N. case_decide.
  - simpl. by repeat constructor.
  - apply pretty_N_go_no_space. constructor.
Qed.

Lemma pretty_N_nonempty (x : N) : pretty x <> "".
Proof.
  unfold pretty, pretty_N. case_decide; [done|].
  rewrite pretty_N_go_step by lia. by apply pretty_N_go_nonempty.
Qed.

Lemma pretty_Z_no_space (z : Z) :
  Forall (fun c => c <> " "%char) (list_ascii_of_string (pretty z)).
Proof.
  destruct z as [|p|p]; unfold pretty, pretty_Z.
  - simpl. by repeat constructor.
  - apply (pretty_N_no_space (Npos p)).
  - rewrite list_ascii_of_string_app. apply Forall_app.
    split; [simpl; by repeat constructor | apply (pretty_N_no_space (Npos p))].
Qed.

Lemma pretty_Z_nonempty (z : Z) : pretty z <> "".
Proof.
  destruct z as [|p|p]; unfold pretty, pretty_Z; [done| |done].
  apply (pretty_N_nonempty (Npos p)).
Qed.

(** Two texts without spaces that are each followed by a space agree when
    what they start agrees. *)
Lemma token_inj (p q rest1 rest2 : list ascii) :
  Forall (fun c => c <> " "%char) p ->
  Forall (fun c => c <> " "%char) q ->
  p ++ " "%char :: rest1 = q ++ " "%char :: rest2 ->
  p = q.
Proof.
  revert q. induction p as [|c p IH]; intros [|d q] Hp Hq Heq; simpl in Heq.
  - done.
  - injection Heq as Hd _. apply Forall_cons in Hq as [Hq _]. by destruct Hq.
  - injection Heq as Hc _. apply Forall_cons in Hp as [Hp _]. by destruct Hp.
  - injection Heq as -> Heq. f_equal.
    apply Forall_cons in Hp as [_ Hp]. apply Forall_cons in Hq as [_ Hq].
    by apply IH.
Qed.

(** The same for texts that are right-aligned in a field. *)
Lemma padded_token_inj (a b : nat) (p q rest1 rest2 : list ascii) :
  Forall (fun c => c <> " "%char) p ->
  Forall (fun c => c <> " "%char) q ->
  p <> [] -> q <> [] ->
  replicate a " "%char ++ p ++ " "%char :: rest1
  = replicate b " "%char ++ q ++ " "%char :: rest2 ->
  p = q.
Proof.
  intros Hp Hq Hpne Hqne. revert b.
  induction a as [|a IH]; intros [|b] Heq; simpl in Heq.
  - by eapply token_inj.
  - destruct p as [|c p]; [done|]. injection Heq as Hc _.
    apply Forall_cons in Hp as [Hp _]. by destruct Hp.
  - destruct q as [|d q]; [done|]. injection Heq as Hd _.
    apply Forall_cons in Hq as [Hq _]. by destruct Hq.
  - injection Heq as Heq. by eapply IH.
Qed.

(** ** list-audio-devices, the whole run *)

Module ListAudioDevicesRuns.

Import ListAudioDevices ListAudioDevicesFacts.

Section Runs.

Variable pa : PortAudio.

(** The line printed for a device that is printed. *)
Lemma lines_printed_for_printed_device i :
  lines_printed_for pa i
  = option_list
      ((fun info =>
          device_line i (name info)
            (match host_api_info pa (hostApi info) with
             | Some api => api_name api
             | None => "?"
             end)
            (i =? default_output_device pa)) <$> printed_device pa i).
Proof.
  rewrite lines_printed_for_cases. unfold printed_device.
  destruct (device_info pa i) as [info|]; [|done].
  by destruct (maxOutputChannels info <? 1).
Qed.

Lemma info_queries_iteration d i :
  omap info_query (calls (iteration pa d i)) = [i].
Proof.
  unfold iteration. destruct (device_info pa i) as [info|]; [|done].
  by destruct (maxOutputChannels info <? 1).
Qed.

Lemma host_api_queries_iteration d i :
  omap host_api_query (calls (iteration pa d i))
  = option_list (hostApi <$> printed_device pa i).
Proof.
  unfold iteration, printed_device.
  destruct (device_info pa i) as [info|]; [|done].
  by destruct (maxOutputChannels info <? 1).
Qed.

Lemma calls_enumeration :
  calls (enumeration pa)
  = [CInitialize; CGetDeviceCount; CGetDefaultOutputDevice]
      ++ concat ((fun i => calls (iteration pa (default_output_device pa) i))
                   <$> seqZ 0 (device_count pa))
      ++ [CTerminate].
Proof.
  unfold enumeration. rewrite !calls_app, calls_concat.
  by rewrite <- list_fmap_compose.
Qed.

End Runs.

(** X1. The lister always runs to an exit, and its status tells what it
    wrote: status 0 exactly when the subsystem initialized and reported a
    non-negative device count, and then nothing goes to stderr; status 1
    otherwise, and then stdout stays empty and stderr gets one message. *)
Theorem exit_status_law (pa : PortAudio) :
  exists status t,
    main pa startup = Some (status, World 0 t) /\
    status = (if (initialize pa =? paNoError) && (0 <=? device_count pa)
              then 0 else 1) /\
    (status = 0 -> output stderr t = []) /\
    (status = 1 -> output stdout t = [] /\ length (output stderr t) = 1%nat).
Proof.
  destruct (Z.eqb_spec (initialize pa) paNoError) as [Hinit|Hinit].
  - destruct (Z.leb_spec 0 (device_count pa)) as [Hcount|Hcount].
    + exists 0, (enumeration pa).
      split; [by apply main_startup_enumerated|]. split; [done|].
      split; [intros _; apply output_stderr_enumeration | done].
    + eexists 1, _. split; [by rewrite main_count_failed|]. done.
  - eexists 1, _. split; [by rewrite main_init_failed|]. done.
Qed.

(** X2. In a run that enumerates, the record of every index from 0 to the
    count minus one is asked for exactly once, in increasing order, and of no
    other index; the host API record is asked for once per printed device,
    with that device's host API identifier, in the same order. *)
Theorem query_discipline (pa : PortAudio) :
  initialize pa = paNoError ->
  0 <= device_count pa ->
  exists t,
    main pa startup = Some (0, World 0 t) /\
    omap info_query (calls t) = seqZ 0 (device_count pa) /\
    omap host_api_query (calls t)
    = hostApi <$> omap (printed_device pa) (seqZ 0 (device_count pa)).
Proof.
  intros Hinit Hcount. exists (enumeration pa).
  split; [by apply main_startup_enumerated|].
  rewrite calls_enumeration, !omap_app, !omap_concat_fmap. split.
  - rewrite (concat_fmap_ext _ (fun i => [i]))
      by (intros i; apply info_queries_iteration).
    cbn [omap list_omap info_query app]. rewrite app_nil_r.
    apply concat_fmap_singleton.
  - rewrite (concat_fmap_ext _
               (fun i => option_list (hostApi <$> printed_device pa i)))
      by (intros i; apply host_api_queries_iteration).
    cbn [omap list_omap host_api_query app]. rewrite app_nil_r.
    rewrite concat_fmap_option_list.
    induction (seqZ 0 (device_count pa)) as [|i l IH]; [done|].
    cbn [omap list_omap]. destruct (printed_device pa i); simpl; by rewrite IH.
Qed.

Lemma query_discipline_witness :
  exists t,
    main studio startup = Some (0, World 0 t) /\
    omap info_query (calls t) = seqZ 0 (device_count studio) /\
    omap host_api_query (calls t)
    = hostApi <$> omap (printed_device studio) (seqZ 0 (device_count studio)).
Proof. apply (query_discipline studio); [reflexivity | simpl; lia]. Defined.

(** X3. In a run that enumerates, stdout holds one line per index whose
    device is printed, so never more lines than the subsystem counted
    devices; with a count of zero nothing is printed. *)
Theorem line_count (pa : PortAudio) :
  initialize pa = paNoError ->
  0 <= device_count pa ->
  exists t,
    main pa startup = Some (0, World 0 t) /\
    length (output stdout t)
    = length (omap (printed_device pa) (seqZ 0 (device_count pa))) /\
    (length (output stdout t) <= Z.to_nat (device_count pa))%nat /\
    (device_count pa = 0 -> output stdout t = []).
Proof.
  intros Hinit Hcount. exists (enumeration pa).
  split; [by apply main_startup_enumerated|].
  assert (length (output stdout (enumeration pa))
          = length (omap (printed_device pa) (seqZ 0 (device_count pa))))
    as Hlen.
  { rewrite output_stdout_enumeration.
    rewrite (concat_fmap_ext _ _ _ (lines_printed_for_printed_device pa)).
    rewrite concat_fmap_option_list.
    apply (length_omap_fmap (printed_device pa)). }
  split; [done|]. split.
  - rewrite Hlen, <- (length_seqZ 0 (device_count pa)). apply length_omap_le.
  - intros Hzero. rewrite output_stdout_enumeration, Hzero. done.
Qed.

Lemma line_count_witness :
  exists t,
    main studio startup = Some (0, World 0 t) /\
    length (output stdout t)
    = length (omap (printed_device studio) (seqZ 0 (device_count studio))) /\
    (length (output stdout t) <= Z.to_nat (device_count studio))%nat /\
    (device_count studio = 0 -> output stdout t = []).
Proof. apply (line_count studio); [reflexivity | simpl; lia]. Defined.

(** *** The default marker across the run *)

Lemma has_marker_device_line i dev_name host_name (is_default : bool) :
  has_marker (device_line i dev_name host_name is_default) = is_default.
Proof.
  unfold has_marker.
  pose proof (ends_with_marker_device_line i dev_name host_name is_default)
    as Hiff.
  unfold ends_with in Hiff. destruct is_default.
  - apply bool_decide_eq_true. by apply Hiff.
  - apply bool_decide_eq_false. intros Hends. by apply Hiff in Hends.
Qed.

Lemma marked_lines_printed_for (pa : PortAudio) i :
  List.filter has_marker (lines_printed_for pa i)
  = if i =? default_output_device pa then lines_printed_for pa i else [].
Proof.
  rewrite lines_printed_for_printed_device.
  destruct (printed_device pa i) as [info|]; simpl.
  - rewrite has_marker_device_line.
    by destruct (i =? default_output_device pa).
  - by destruct (i =? default_output_device pa).
Qed.

Lemma length_lines_printed_for (pa : PortAudio) i :
  length (lines_printed_for pa i)
  = if bool_decide (is_Some (printed_device pa i)) then 1%nat else 0%nat.
Proof.
  rewrite lines_printed_for_printed_device.
  destruct (printed_device pa i) as [info|].
  - by rewrite bool_decide_eq_true_2.
  - by rewrite bool_decide_eq_false_2 by (by intros [? [=]]).
Qed.

Lemma marked_lines_of_indices (pa : PortAudio) (l : list Z) :
  NoDup l ->
  length (List.filter has_marker (concat (lines_printed_for pa <$> l)))
  = if bool_decide (default_output_device pa ∈ l /\
                    is_Some (printed_device pa (default_output_device pa)))
    then 1%nat else 0%nat.
Proof.
  induction 1 as [|i l Hi Hl IH].
  - rewrite bool_decide_eq_false_2; [done|]. by intros [?%elem_of_nil _].
  - rewrite fmap_cons. cbn [concat].
    rewrite List.filter_app, length_app, IH, marked_lines_printed_for.
    destruct (Z.eqb_spec i (default_output_device pa)) as [->|Hne].
    + rewrite length_lines_printed_for.
      rewrite (bool_decide_eq_false_2 (_ ∈ l /\ _)) by (by intros [? _]).
      rewrite Nat.add_0_r.
      apply (f_equal (fun b : bool => if b then 1%nat else 0%nat)).
      apply bool_decide_ext.
      split; [intros ?; split; [left|done] | by intros [_ ?]].
    + simpl. apply (f_equal (fun b : bool => if b then 1%nat else 0%nat)).
      apply bool_decide_ext. rewrite elem_of_cons.
      split; [intros [? ?]; split; [by right|done]|].
      intros [[?|?] ?]; [congruence|done].
Qed.

(** X4. In a run that enumerates, at most one line of stdout carries the
    default marker: exactly one when the reported default output index lies
    in [0, device count) and its device is printed, and none otherwise (a
    default of -1, an index out of range, or a device that is not printed). *)
Theorem marker_count (pa : PortAudio) :
  initialize pa = paNoError ->
  0 <= device_count pa ->
  exists t,
    main pa startup = Some (0, World 0 t) /\
    length (List.filter has_marker (output stdout t))
    = if bool_decide
           (0 <= default_output_device pa < device_count pa /\
            is_Some (printed_device pa (default_output_device pa)))
      then 1%nat else 0%nat.
Proof.
  intros Hinit Hcount. exists (enumeration pa).
  split; [by apply main_startup_enumerated|].
  rewrite output_stdout_enumeration, marked_lines_of_indices
    by apply NoDup_seqZ.
  apply (f_equal (fun b : bool => if b then 1%nat else 0%nat)).
  apply bool_decide_ext. rewrite elem_of_seqZ.
  split; (intros [? ?]; split; [lia|done]).
Qed.

Lemma marker_count_witness :
  exists t,
    main studio startup = Some (0, World 0 t) /\
    length (List.filter has_marker (output stdout t))
    = if bool_decide
           (0 <= default_output_device studio < device_count studio /\
            is_Some (printed_device studio (default_output_device studio)))
      then 1%nat else 0%nat.
Proof. apply (marker_count studio); [reflexivity | simpl; lia]. Defined.

(** *** The index column *)

Lemma device_line_chars i dev_name host_name (is_default : bool) :
  exists rest,
    list_ascii_of_string (device_line i dev_name host_name is_default)
    = replicate (3 - String.length (pretty i)) " "%char
        ++ list_ascii_of_string (pretty i) ++ " "%char :: rest.
Proof.
  eexists. unfold device_line, pad. rewrite string_app_assoc.
  rewrite !list_ascii_of_string_app, list_ascii_of_spaces. reflexivity.
Qed.

(** A line tells which index it was printed for. *)
Lemma device_line_index i j name1 name2 host1 host2 (d1 d2 : bool) :
  device_line i name1 host1 d1 = device_line j name2 host2 d2 -> i = j.
Proof.
  intros Heq. apply (f_equal list_ascii_of_string) in Heq.
  destruct (device_line_chars i name1 host1 d1) as [rest1 Hi].
  destruct (device_line_chars j name2 host2 d2) as [rest2 Hj].
  rewrite Hi, Hj in Heq.
  apply padded_token_inj in Heq; [|apply pretty_Z_no_space..| |].
  - apply (inj pretty).
    by rewrite <- (string_of_list_ascii_of_string (pretty i)), Heq,
      string_of_list_ascii_of_string.
  - pose proof (pretty_Z_nonempty i). by destruct (pretty i).
  - pose proof (pretty_Z_nonempty j). by destruct (pretty j).
Qed.

(** X7. No two indices get the same line: a line names its index in its
    first column, so what is printed for one index is printed for no other,
    and the stdout of a run that enumerates never repeats a line, even when
    two devices share their name and host API. *)
Theorem lines_are_distinct (pa : PortAudio) :
  initialize pa = paNoError ->
  0 <= device_count pa ->
  exists t,
    main pa startup = Some (0, World 0 t) /\
    NoDup (output stdout t) /\
    forall i j line,
      line ∈ lines_printed_for pa i -> line ∈ lines_printed_for pa j -> i = j.
Proof.
  intros Hinit Hcount.
  assert (forall i j line,
             line ∈ lines_printed_for pa i -> line ∈ lines_printed_for pa j ->
             i = j) as Hsep.
  { intros i j line (info1 & _ & _ & ->)%elem_of_lines_printed_for
      (info2 & _ & _ & Heq)%elem_of_lines_printed_for.
    by apply device_line_index in Heq. }
  exists (enumeration pa). split; [by apply main_startup_enumerated|].
  split; [|exact Hsep].
  rewrite output_stdout_enumeration.
  apply NoDup_concat_fmap; [apply NoDup_seqZ| |exact Hsep].
  intros i. rewrite lines_printed_for_printed_device.
  destruct (printed_device pa i); simpl; [apply NoDup_singleton | constructor].
Qed.

Lemma lines_are_distinct_witness :
  exists t,
    main studio startup = Some (0, World 0 t) /\
    NoDup (output stdout t) /\
    forall i j line,
      line ∈ lines_printed_for studio i ->
      line ∈ lines_printed_for studio j -> i = j.
Proof. apply (lines_are_distinct studio); [reflexivity | simpl; lia]. Defined.

(** *** Columns *)

(** The decimal text of an index below 1000 has at most three characters. *)
Lemma length_pretty_below_1000 (i : Z) :
  0 <= i < 1000 -> (String.length (pretty i) <= 3)%nat.
Proof.
  intros Hi.
  assert (forallb (fun j => (String.length (pretty j) <=? 3)%nat)
            (seqZ 0 1000) = true) as Hall by (vm_compute; reflexivity).
  rewrite forallb_forall in Hall.
  apply Nat.leb_le, Hall, list_elem_of_In, elem_of_seqZ. lia.
Qed.

(** X5. The line of a printed device puts the opening bracket of the host
    API name after a head of max(3, digits of the index) + 2 + max(40,
    length of the name) + 2 characters; for an index below 1000 and a name
    of at most 40 characters that is 47 characters, so the brackets of all
    such lines open in the same column. *)
Theorem bracket_column (pa : PortAudio) (i : Z) (info : PaDeviceInfo) :
  printed_device pa i = Some info ->
  exists head tail,
    lines_printed_for pa i = [head +:+ "[" +:+ tail] /\
    String.length head
    = (Nat.max 3 (String.length (pretty i)) + 2
       + Nat.max 40 (String.length (name info)) + 2)%nat /\
    (0 <= i < 1000 -> (String.length (name info) <= 40)%nat ->
     String.length head = 47%nat).
Proof.
  intros Hprinted.
  exists (pad false 3 (pretty i) +:+ "  " +:+ pad true 40 (name info) +:+ "  ").
  exists (match host_api_info pa (hostApi info) with
          | Some api => api_name api
          | None => "?"
          end
          +:+ "]" +:+ (if i =? default_output_device pa then " *" else "")
          +:+ String LF "").
  split; [|split].
  - rewrite lines_printed_for_printed_device, Hprinted.
    unfold device_line. by rewrite !string_app_assoc.
  - rewrite !string_length_app, !length_pad. simpl. lia.
  - intros Hi Hname. pose proof (length_pretty_below_1000 i Hi).
    rewrite !string_length_app, !length_pad. simpl. lia.
Qed.

Lemma bracket_column_witness :
  exists head tail,
    lines_printed_for studio 3 = [head +:+ "[" +:+ tail] /\
    String.length head
    = (Nat.max 3 (String.length (pretty 3)) + 2
       + Nat.max 40 (String.length "Monitor Speakers") + 2)%nat /\
    (0 <= 3 < 1000 -> (String.length "Monitor Speakers" <= 40)%nat ->
     String.length head = 47%nat).
Proof.
  apply (bracket_column studio 3
           {| name := "Monitor Speakers"; hostApi := 1;
              maxOutputChannels := 2 |}).
  reflexivity.
Defined.

(** *** Line ends *)

Lemma device_line_ends_with_LF i dev_name host_name is_default :
  ends_with (String LF "") (device_line i dev_name host_name is_default).
Proof.
  unfold device_line. do 7 apply ends_with_app_r. apply ends_with_refl.
Qed.

(** X6. Whatever the subsystem answers, every piece the lister writes, to
    stdout or to stderr, ends with a line feed. *)
Theorem lister_writes_whole_lines (pa : PortAudio) :
  exists status t,
    main pa startup = Some (status, World 0 t) /\
    forall f line, line ∈ output f t -> ends_with (String LF "") line.
Proof.
  destruct (Z.eqb_spec (initialize pa) paNoError) as [Hinit|Hinit];
    [destruct (Z.leb_spec 0 (device_count pa)) as [Hcount|Hcount]|].
  - exists 0, (enumeration pa).
    split; [by apply main_startup_enumerated|]. intros [] line.
    + rewrite output_stdout_enumeration, elem_of_concat_fmap.
      intros (i & _ & (info & _ & _ & ->)%elem_of_lines_printed_for).
      apply device_line_ends_with_LF.
    + rewrite output_stderr_enumeration. by intros ?%elem_of_nil.
  - eexists 1, _. split; [by rewrite main_count_failed|].
    intros [] line; simpl; [by intros ?%elem_of_nil|].
    intros ->%list_elem_of_singleton.
    do 2 apply ends_with_app_r. apply ends_with_refl.
  - eexists 1, _. split; [by rewrite main_init_failed|].
    intros [] line; simpl; [by intros ?%elem_of_nil|].
    intros ->%list_elem_of_singleton.
    do 2 apply ends_with_app_r. apply ends_with_refl.
Qed.

End ListAudioDevicesRuns.

(** ** sem_unlink, the whole run *)

Module SemUnlinkRuns.

Import SemUnlink SemUnlinkFacts.

(** X8. The unlinker is undefined for an empty argument vector and for no
    other: with [argc] zero the usage message formats the null [argv[0]];
    with a program name in place every run reaches an exit, whatever the
    arguments and whatever the system answers. *)
Theorem undefined_only_without_argv (os : System) (argv : list string)
  (w : world) :
  main os argv w = None <-> argv = [].
Proof.
  split; [|by intros ->].
  destruct argv as [|prog [|name [|extra args]]]; [done|..]; intros Hnone.
  - by rewrite main_usage in Hnone.
  - destruct (decide (unlink_result os name = 0)) as [Hok|Hfail].
    + by rewrite main_unlinked in Hnone.
    + by rewrite main_unlink_failed in Hnone.
  - by rewrite main_usage in Hnone.
Qed.

(** X9. With a program name in place the exit status is 0 or 1, and it is 0
    exactly when there is one argument and its removal returned 0.  The run
    writes one piece in all: to stdout when the status is 0, to stderr when
    it is 1. *)
Theorem unlinker_exit_status_law (os : System) (prog : string)
  (args : list string) :
  exists status e t,
    main os (prog :: args) startup = Some (status, World e t) /\
    (status = 0 \/ status = 1) /\
    (status = 0 <-> exists name, args = [name] /\ unlink_result os name = 0) /\
    (status = 0 ->
     length (output stdout t) = 1%nat /\ output stderr t = []) /\
    (status = 1 ->
     output stdout t = [] /\ length (output stderr t) = 1%nat).
Proof.
  destruct args as [|name [|extra args]].
  - eexists 1, _, _. split; [by rewrite main_usage|].
    split; [by right|]. split; [|done].
    split; [done | by intros (name & [=] & _)].
  - destruct (decide (unlink_result os name = 0)) as [Hok|Hfail].
    + eexists 0, _, _. split; [by rewrite main_unlinked|].
      split; [by left|]. split; [|done].
      split; [by exists name | done].
    + eexists 1, _, _. split; [by rewrite main_unlink_failed|].
      split; [by right|]. split; [|done].
      split; [done | by intros (name' & [= <-] & ?)].
  - eexists 1, _, _. split; [by rewrite main_usage|].
    split; [by right|]. split; [|done].
    split; [done | by intros (name' & [=] & _)].
Qed.

(** X10. The removal is attempted at most once per run and never retried:
    once, with the argument handed over as it is (no check of a leading
    slash, the empty name included), when there is exactly one argument, and
    not at all otherwise. *)
Theorem single_attempt (os : System) (prog : string) (args : list string) :
  exists status e t,
    main os (prog :: args) startup = Some (status, World e t) /\
    calls t = match args with
              | [name] => [CSemUnlink name]
              | _ => []
              end.
Proof.
  destruct args as [|name [|extra args]].
  - eexists 1, _, _. split; [by rewrite main_usage|]. done.
  - destruct (decide (unlink_result os name = 0)) as [Hok|Hfail].
    + eexists 0, _, _. split; [by rewrite main_unlinked|]. done.
    + eexists 1, _, _. split; [by rewrite main_unlink_failed|]. done.
  - eexists 1, _, _. split; [by rewrite main_usage|]. done.
Qed.

(** X11. With a program name in place, every piece the unlinker writes, to
    stdout or to stderr, ends with a line feed. *)
Theorem unlinker_writes_whole_lines (os : System) (prog : string)
  (args : list string) :
  exists status e t,
    main os (prog :: args) startup = Some (status, World e t) /\
    forall f line,
      line ∈ output f t -> ListAudioDevices.ends_with (String LF "") line.
Proof.
  destruct args as [|name [|extra args]].
  - eexists 1, _, _. split; [by rewrite main_usage|].
    intros [] line; simpl; [by intros ?%elem_of_nil|].
    intros ->%list_elem_of_singleton.
    do 3 apply ends_with_app_r. apply ends_with_refl.
  - destruct (decide (unlink_result os name = 0)) as [Hok|Hfail].
    + eexists 0, _, _. split; [by rewrite main_unlinked|].
      intros [] line; simpl; [|by intros ?%elem_of_nil].
      intros ->%list_elem_of_singleton.
      do 2 apply ends_with_app_r. apply ends_with_refl.
    + eexists 1, _, _. split; [by rewrite main_unlink_failed|].
      intros [] line; simpl; [by intros ?%elem_of_nil|].
      intros ->%list_elem_of_singleton.
      do 2 apply ends_with_app_r. apply ends_with_refl.
  - eexists 1, _, _. split; [by rewrite main_usage|].
    intros [] line; simpl; [by intros ?%elem_of_nil|].
    intros ->%list_elem_of_singleton.
    do 3 apply ends_with_app_r. apply ends_with_refl.
Qed.

End SemUnlinkRuns.
